(** * fastbt.options.payoff: option contracts and the payoff book

    A shallow embedding of [src/fastbt/options/payoff.py] and the
    properties of contract valuation and position aggregation.

    Numbers are the Python ones: an [int] is an unbounded integer ([Z]),
    a [float] is an IEEE 754 binary64 value (Rocq's primitive [float]),
    and an arithmetic operator on an [int] and a [float] first converts
    the [int], which raises [OverflowError] when it is out of range.
    Exceptions are values of [result]; the methods that mutate the book
    run in a small state-and-exception monad, in which the mutations made
    before a [raise] stay.

    The contract and the book are pydantic (version 1) models.  The
    arguments are taken at the annotated types: [premium] and the book's
    [spot] are floats, [quantity] and [lot_size] are ints, and a strike is
    an int or a float.  For the field [strike: Union[int, float]] pydantic
    tries the members of the union in order, so that a float strike is
    stored as an int whenever [int(strike)] succeeds. *)

From Stdlib Require Import ZArith Floats Permutation.
From stdpp Require Import base option list countable gmap.

Local Open Scope Z_scope.

(** ** Exceptions *)

Inductive exn : Type :=
| ValidationError   (* pydantic's wrapper of the validator's ValueError *)
| OverflowError.    (* int too large to convert to float *)

Inductive result (A : Type) : Type :=
| Ok (a : A)
| Raise (e : exn).

Arguments Ok {A} a.
Arguments Raise {A} e.

#[global] Instance result_ret : MRet result := λ A a, Ok a.
#[global] Instance result_bind : MBind result := λ A B f m,
  match m with
  | Ok a => f a
  | Raise e => Raise e
  end.

Definition is_Ok {A} (r : result A) : bool :=
  match r with Ok _ => true | Raise _ => false end.

(** ** Python numbers *)

Inductive pynum : Type :=
| PInt (z : Z)
| PFloat (f : float).

(** [float(z)] for an int [z]: the nearest binary64 value, ties to even;
    an int that rounds beyond the largest finite float raises. *)
Definition int_to_float (z : Z) : result float :=
  let f := SF2Prim (binary_normalize prec emax z 0 false) in
  if is_infinity f then Raise OverflowError else Ok f.

Definition to_float (a : pynum) : result float :=
  match a with
  | PInt z => int_to_float z
  | PFloat f => Ok f
  end.

(** A binary operator [+], [-] or [*]: exact on two ints, otherwise the
    float operation on the converted operands (left operand first).
    The float operations themselves never raise: they round, and
    overflow to an infinity. *)
Definition py_arith (iop : Z → Z → Z) (fop : float → float → float)
    (a b : pynum) : result pynum :=
  match a, b with
  | PInt x, PInt y => Ok (PInt (iop x y))
  | _, _ => x ← to_float a; y ← to_float b; Ok (PFloat (fop x y))
  end.

Definition py_add : pynum → pynum → result pynum := py_arith Z.add PrimFloat.add.
Definition py_sub : pynum → pynum → result pynum := py_arith Z.sub PrimFloat.sub.
Definition py_mul : pynum → pynum → result pynum := py_arith Z.mul PrimFloat.mul.

(** [0 > a], the comparison [max(a, 0)] makes; Python compares an int
    with a float exactly, and every comparison with a NaN is false. *)
Definition py_zero_gt (a : pynum) : bool :=
  match a with
  | PInt z => z <? 0
  | PFloat f => PrimFloat.ltb f PrimFloat.zero
  end.

(** [max(a, 0)]: the first argument is kept unless the second is
    strictly greater. *)
Definition py_max0 (a : pynum) : pynum :=
  if py_zero_gt a then PInt 0 else a.

(** Truth value of a number: zero (of either sign) is false, NaN is true. *)
Definition py_bool (a : pynum) : bool :=
  match a with
  | PInt z => negb (z =? 0)
  | PFloat f => negb (PrimFloat.eqb f PrimFloat.zero)
  end.

(** Truth value of an [Optional] number: [None] is false. *)
Definition py_bool_opt (a : option pynum) : bool :=
  match a with
  | None => false
  | Some x => py_bool x
  end.

(** The builtin [sum(xs)]: starts from the int [0] and adds the items
    from left to right, as CPython does up to 3.11.  From 3.12 on CPython
    carries a correction term for the rounding errors of a float sum, so
    that a float sum of three or more items can differ from this one in
    its rounding.  The theorems below that involve a sum do not rest on
    that rounding: they are about sums of ints, sums of one item, the
    exceptions of a sum, and an overflow of the running total. *)
Fixpoint py_sum_from (acc : pynum) (xs : list pynum) : result pynum :=
  match xs with
  | [] => Ok acc
  | x :: xs' => acc' ← py_add acc x; py_sum_from acc' xs'
  end.

Definition py_sum (xs : list pynum) : result pynum := py_sum_from (PInt 0) xs.

(** [int(f)] for a float: its integer part, rounded towards zero; there
    is none for a NaN or an infinity ([int] raises there). *)
Definition float_to_int (f : float) : option Z :=
  match Prim2SF f with
  | S754_zero _ => Some 0
  | S754_finite sign m e =>
      let magnitude := Z.shiftl (Zpos m) e in
      Some (if sign then - magnitude else magnitude)
  | S754_infinity _ | S754_nan => None
  end.

(** pydantic's validation of a value for [Union[int, float]]: the int
    member is tried first and takes an int as it is and a float [f] as
    [int(f)]; where [int(f)] raises, the float member takes [f]. *)
Definition validate_int_or_float (v : pynum) : pynum :=
  match v with
  | PInt z => PInt z
  | PFloat f =>
      match float_to_int f with
      | Some z => PInt z
      | None => PFloat f
      end
  end.

(** ** Enumerations *)

Inductive Opt : Type := CALL | PUT | FUTURE | HOLDING.

Inductive Side : Type := BUY | SELL.

(** [side.value] *)
Definition Side_value (s : Side) : Z :=
  match s with
  | BUY => 1
  | SELL => -1
  end.

#[global] Instance Opt_eq_dec : EqDecision Opt.
Proof. solve_decision. Defined.

#[global] Instance Side_eq_dec : EqDecision Side.
Proof. solve_decision. Defined.

Definition Opt_to_nat (o : Opt) : nat :=
  match o with CALL => 0 | PUT => 1 | FUTURE => 2 | HOLDING => 3 end%nat.

Definition Opt_of_nat (n : nat) : Opt :=
  match n with 0 => CALL | 1 => PUT | 2 => FUTURE | _ => HOLDING end%nat.

#[global] Instance Opt_countable : Countable Opt.
Proof.
  refine (inj_countable' Opt_to_nat Opt_of_nat _).
  intros []; reflexivity.
Defined.

(** [option in (Opt.CALL, Opt.PUT)] *)
Definition in_call_put (o : Opt) : bool :=
  match o with
  | CALL | PUT => true
  | FUTURE | HOLDING => false
  end.

(** ** OptionContract *)

Record OptionContract : Type := mkOptionContract {
  strike : pynum;
  option_ : Opt;
  side : Side;
  premium : float;
  quantity : Z
}.

(** The root validator: a call or a put needs a premium. *)
Definition premium_check (values : OptionContract) : result OptionContract :=
  if in_call_put (option_ values) then
    if PrimFloat.eqb (premium values) 0%float then Raise ValidationError
    else Ok values
  else Ok values.

(** [OptionContract(strike=.., option=.., side=.., premium=.., quantity=..)];
    [premium] and [quantity] may be left out.  The fields are validated
    first ([strike] against [Union[int, float]]), then the root validator
    runs on the validated values. *)
Definition OptionContract_init (strike : pynum) (opt : Opt) (sd : Side)
    (prem : option float) (qty : option Z) : result OptionContract :=
  premium_check
    {| strike := validate_int_or_float strike; option_ := opt; side := sd;
       premium := default 0%float prem; quantity := default 1 qty |}.

Definition value (self : OptionContract) (spot : pynum) : result pynum :=
  match option_ self with
  | CALL => v ← py_sub spot (strike self); Ok (py_max0 v)
  | PUT => v ← py_sub (strike self) spot; Ok (py_max0 v)
  | _ => py_sub spot (strike self)
  end.

Definition net_value (self : OptionContract) (spot : pynum) : result pynum :=
  val ← value self spot;
  if in_call_put (option_ self) then
    d ← py_sub val (PFloat (premium self));
    e ← py_mul d (PInt (Side_value (side self)));
    py_mul e (PInt (quantity self))
  else
    e ← py_mul val (PInt (Side_value (side self)));
    py_mul e (PInt (quantity self)).

(** ** OptionPayoff *)

Record OptionPayoff : Type := mkOptionPayoff {
  spot : float;
  lot_size : Z;
  _options : list OptionContract
}.

(** A fresh book: [OptionPayoff(spot=.., lot_size=..)], both optional. *)
Definition OptionPayoff_init (sp : option float) (lot : option Z) : OptionPayoff :=
  {| spot := default 0%float sp; lot_size := default 1 lot; _options := [] |}.

(** Methods that mutate the book: a state transformer that also yields a
    value or an exception.  The state that comes out with an exception is
    the state at the [raise]. *)
Definition prog (A : Type) : Type := OptionPayoff → result A * OptionPayoff.

#[global] Instance prog_ret : MRet prog := λ A a self, (Ok a, self).
#[global] Instance prog_bind : MBind prog := λ A B f m self,
  match m self with
  | (Ok a, self') => f a self'
  | (Raise e, self') => (Raise e, self')
  end.

(** Evaluating an expression that does not touch the book. *)
Definition eval {A} (r : result A) : prog A := λ self, (r, self).

(** Calling a method that only reads the book. *)
Definition query {A} (f : OptionPayoff → result A) : prog A := λ self, (f self, self).

(** [self._options.append(contract)] *)
Definition options_append (contract : OptionContract) : prog unit := λ self,
  (Ok tt, {| spot := spot self; lot_size := lot_size self;
             _options := _options self ++ [contract] |}).

(** [self._options = []] *)
Definition options_reset : prog unit := λ self,
  (Ok tt, {| spot := spot self; lot_size := lot_size self; _options := [] |}).

Definition add (contract : OptionContract) : prog unit :=
  options_append contract.

Definition add_contract (strike : pynum) (opt_type : option Opt)
    (sd : option Side) (prem : option float) (qty : option Z) : prog unit :=
  contract ← eval (OptionContract_init strike (default CALL opt_type)
                     (default BUY sd) (Some (default 0%float prem))
                     (Some (default 1 qty)));
  options_append contract.

Definition options (self : OptionPayoff) : list OptionContract := _options self.

(** A [Counter]: a missing key reads as [0], and [c[k] += q] stores the
    sum under [k] (also when the sum is [0]). *)
Definition Counter_get (c : gmap Opt Z) (k : Opt) : Z := default 0 (c !! k).

Definition Counter_iadd (c : gmap Opt Z) (k : Opt) (q : Z) : gmap Opt Z :=
  <[k := Counter_get c k + q]> c.

Definition net_positions (self : OptionPayoff) : gmap Opt Z :=
  foldl (λ positions contract,
           let qty := quantity contract * Side_value (side contract) * lot_size self in
           Counter_iadd positions (option_ contract) qty)
        ∅ (options self).

Definition has_naked_positions (self : OptionPayoff) : bool :=
  let positions := net_positions self in
  if Counter_get positions CALL <? 0 then true
  else if Counter_get positions PUT <? 0 then true
  else false.

Definition clear : prog unit := options_reset.

(** The list [[contract.net_value(spot) * self.lot_size for contract in
    self.options]], built from left to right. *)
Definition payoff_terms (self : OptionPayoff) (sp : pynum) : result (list pynum) :=
  mapM (λ contract, v ← net_value contract sp; py_mul v (PInt (lot_size self)))
       (options self).

Definition payoff (self : OptionPayoff) (sp : option pynum) : result pynum :=
  let sp' := if negb (py_bool_opt sp) then PFloat (spot self)
             else default (PFloat (spot self)) sp in
  if (length (options self) =? 0)%nat then Ok (PFloat 0%float)
  else terms ← payoff_terms self sp'; py_sum terms.

Definition simulate (self : OptionPayoff) (spots : list pynum) : result (list pynum) :=
  mapM (λ price, payoff self (Some price)) spots.

(** ** Expressions over numbers, for stating results

    The operators of Python lifted to computations that may have raised,
    so that a formula such as [(max(s - k, 0) - p) * m * q] can be written
    as it stands; its operands are evaluated from left to right. *)

Definition lift2 (op : pynum → pynum → result pynum)
    (a b : result pynum) : result pynum :=
  x ← a; y ← b; op x y.

Definition pmax0 (a : result pynum) : result pynum := x ← a; Ok (py_max0 x).

Definition num (a : pynum) : result pynum := Ok a.
Definition int (z : Z) : result pynum := Ok (PInt z).
Definition flt (f : float) : result pynum := Ok (PFloat f).

Declare Scope py_scope.
Delimit Scope py_scope with py.
Notation "a + b" := (lift2 py_add a b) : py_scope.
Notation "a - b" := (lift2 py_sub a b) : py_scope.
Notation "a * b" := (lift2 py_mul a b) : py_scope.

(** What [payoff] computes once the price is settled: [0.0] on an empty
    book, else the sum of the terms. *)
Definition payoff_at (self : OptionPayoff) (sp : pynum) : result pynum :=
  if (length (options self) =? 0)%nat then Ok (PFloat 0%float)
  else terms ← payoff_terms self sp; py_sum terms.

(** The book with another sequence of contracts. *)
Definition with_options (self : OptionPayoff) (l : list OptionContract) : OptionPayoff :=
  {| spot := spot self; lot_size := lot_size self; _options := l |}.

(** Sum of a list of ints. *)
Definition Zsum (l : list Z) : Z := foldr Z.add 0 l.

(** ** Definitions used in the statements *)

(** The exposure one contract adds to the bucket of its kind. *)
Definition exposure (lot : Z) (c : OptionContract) : Z :=
  quantity c * Side_value (side c) * lot.

Definition of_kind (K : Opt) (l : list OptionContract) : list OptionContract :=
  filter (λ c, option_ c = K) l.

(** The price [payoff] settles on: the argument when it is truthy, else
    the book's own [spot]. *)
Definition settled_spot (self : OptionPayoff) (sp : option pynum) : pynum :=
  match sp with
  | Some s => if py_bool s then s else PFloat (spot self)
  | None => PFloat (spot self)
  end.

(** A future or a holding entered at an integer price. *)
Definition int_future (c : OptionContract) : bool :=
  negb (in_call_put (option_ c))
  && match strike c with PInt _ => true | PFloat _ => false end.

Definition int_strike (c : OptionContract) : Z :=
  match strike c with PInt k => k | PFloat _ => 0 end.

(** ** Example books *)

(** A long future entered at 50 in a book whose own spot is 100. *)
Definition future_book : OptionPayoff :=
  {| spot := 100%float; lot_size := 1;
     _options := [ {| strike := PInt 50; option_ := FUTURE; side := BUY;
                      premium := 0%float; quantity := 1 |} ] |}.

(** A long straddle at 100: a bought call (premium 5) and a bought put
    (premium 4). *)
Definition straddle : OptionPayoff :=
  {| spot := 0%float; lot_size := 1;
     _options := [ {| strike := PInt 100; option_ := CALL; side := BUY;
                      premium := 5%float; quantity := 1 |};
                   {| strike := PInt 100; option_ := PUT; side := BUY;
                      premium := 4%float; quantity := 1 |} ] |}.

(** A short strangle: a sold call at 110 and a sold put at 90. *)
Definition strangle : OptionPayoff :=
  {| spot := 0%float; lot_size := 1;
     _options := [ {| strike := PInt 110; option_ := CALL; side := SELL;
                      premium := 3%float; quantity := 1 |};
                   {| strike := PInt 90; option_ := PUT; side := SELL;
                      premium := 3%float; quantity := 1 |} ] |}.

(** Two long futures and one short future, all entered at 0. *)
Definition long_future : OptionContract :=
  {| strike := PInt 0; option_ := FUTURE; side := BUY;
     premium := 0%float; quantity := 1 |}.

Definition short_future : OptionContract :=
  {| strike := PInt 0; option_ := FUTURE; side := SELL;
     premium := 0%float; quantity := 1 |}.

Definition long_long_short : OptionPayoff :=
  {| spot := 0%float; lot_size := 1;
     _options := [long_future; long_future; short_future] |}.

(** The price [2.0 ** 1023], about [8.99e307]. *)
Definition huge_price : pynum := PFloat 0x1p+1023%float.

(** ** Definitions for the further properties *)

(** Unary minus, [-a]. *)
Definition py_neg (a : pynum) : pynum :=
  match a with
  | PInt z => PInt (- z)
  | PFloat f => PFloat (- f)%float
  end.

(** The contract [c] taken on the side [sd]. *)
Definition on_side (c : OptionContract) (sd : Side) : OptionContract :=
  {| strike := strike c; option_ := option_ c; side := sd;
     premium := premium c; quantity := quantity c |}.

(** The book after a call of a mutating method. *)
Definition book_after {A} (m : prog A) (self : OptionPayoff) : OptionPayoff :=
  snd (m self).

(** The invariant of a constructed contract: a call or a put has a
    premium that does not compare equal to [0.0]. *)
Definition has_premium (c : OptionContract) : bool :=
  negb (in_call_put (option_ c)) || negb (PrimFloat.eqb (premium c) 0%float).

(** Two contracts that differ in their prices only. *)
Definition same_position (c1 c2 : OptionContract) : Prop :=
  option_ c1 = option_ c2 ∧ side c1 = side c2 ∧ quantity c1 = quantity c2.

(** ** The model on the documented scenarios *)

Example straddle_payoffs :
  payoff straddle (Some (PInt 130)) = Ok (PFloat 21%float)
  ∧ payoff straddle (Some (PInt 70)) = Ok (PFloat 21%float)
  ∧ payoff straddle (Some (PInt 100)) = Ok (PFloat (-9)%float)
  ∧ simulate straddle [PInt 130; PInt 70; PInt 100]
    = Ok [PFloat 21%float; PFloat 21%float; PFloat (-9)%float].
Proof. repeat split; vm_compute; reflexivity. Qed.

Example strangle_positions :
  Counter_get (net_positions strangle) CALL = -1
  ∧ Counter_get (net_positions strangle) PUT = -1
  ∧ Counter_get (net_positions strangle) FUTURE = 0
  ∧ has_naked_positions strangle = true.
Proof. repeat split; vm_compute; reflexivity. Qed.

(** All the arguments of [add_contract] left at their defaults ask for a
    call without premium. *)
Example add_contract_defaults :
  add_contract (PInt 100) None None None None straddle = (Raise ValidationError, straddle)
  ∧ fst (add_contract (PInt 100) (Some FUTURE) None None None straddle) = Ok tt.
Proof. split; vm_compute; reflexivity. Qed.

(** A float strike is stored as its integer part; a strike that has none
    stays a float. *)
Example strike_is_validated :
  OptionContract_init (PFloat 95.5%float) FUTURE BUY None None
  = Ok {| strike := PInt 95; option_ := FUTURE; side := BUY;
          premium := 0%float; quantity := 1 |}
  ∧ validate_int_or_float (PFloat (-95.5)%float) = PInt (-95)
  ∧ validate_int_or_float (PFloat 0x1p+70%float) = PInt (2 ^ 70)
  ∧ validate_int_or_float (PFloat (- 0)%float) = PInt 0
  ∧ validate_int_or_float (PFloat infinity) = PFloat infinity
  ∧ validate_int_or_float (PFloat nan) = PFloat nan
  ∧ validate_int_or_float (PInt 7) = PInt 7.
Proof. repeat split; vm_compute; reflexivity. Qed.

(** A call bought at 100.5 is a call at 100. *)
Example add_contract_float_strike :
  payoff (book_after (add_contract (PFloat 100.5%float) None None (Some 5%float) None)
            (OptionPayoff_init None None))
         (Some (PInt 130))
  = Ok (PFloat 25%float).
Proof. vm_compute. reflexivity. Qed.

(** An int beyond the floats cannot meet a float. *)
Example huge_quantity_overflows :
  net_value {| strike := PInt 50; option_ := FUTURE; side := BUY;
               premium := 0%float; quantity := 10 ^ 400 |} (PFloat 1%float)
  = Raise OverflowError.
Proof. vm_compute. reflexivity. Qed.

(** ** Contract valuation *)

(** Case analysis on the computations a goal branches on. *)
Ltac case_result :=
  repeat match goal with
         | |- context [match ?r with Ok _ => _ | Raise _ => _ end] =>
             destruct r; simpl
         end;
  try reflexivity.

(** C2: the net value of a contract, by kind.  A call is worth
    [(max(s - strike, 0) - premium) * m * quantity], a put
    [(max(strike - s, 0) - premium) * m * quantity], a future or a holding
    [(s - strike) * m * quantity] whatever its premium, where the side
    multiplier [m] is [+1] for BUY and [-1] for SELL. *)
Theorem net_value_by_kind (k : pynum) (o : Opt) (sd : Side) (p : float) (q : Z)
    (s : pynum) :
  net_value {| strike := k; option_ := o; side := sd; premium := p; quantity := q |} s =
    match o with
    | CALL => ((pmax0 (num s - num k) - flt p) * int (Side_value sd) * int q)%py
    | PUT => ((pmax0 (num k - num s) - flt p) * int (Side_value sd) * int q)%py
    | FUTURE | HOLDING => ((num s - num k) * int (Side_value sd) * int q)%py
    end
  ∧ Side_value BUY = 1 ∧ Side_value SELL = -1.
Proof.
  split; [| split; reflexivity].
  unfold net_value, value, lift2, pmax0, num, int, flt, mbind, result_bind; simpl.
  destruct o; simpl; case_result.
Qed.

(** ** Contract construction *)

Lemma premium_check_cases (c : OptionContract) :
  premium_check c =
    if in_call_put (option_ c) && PrimFloat.eqb (premium c) 0%float
    then Raise ValidationError else Ok c.
Proof.
  unfold premium_check.
  destruct (in_call_put (option_ c)); simpl; [| reflexivity].
  destruct (PrimFloat.eqb (premium c) 0%float); reflexivity.
Qed.

(** C3: construction raises ValidationError exactly when the kind is CALL
    or PUT and the premium compares equal to [0.0]; in every other case
    (a nonzero premium of either sign, or a future or holding with any
    premium) it returns the contract, with the strike as the field
    validation stores it and the other fields as given, whatever the
    strike, the side and the quantity are. *)
Theorem construction_fails_iff (k : pynum) (o : Opt) (sd : Side)
    (p : option float) (q : option Z) :
  let c := {| strike := validate_int_or_float k; option_ := o; side := sd;
              premium := default 0%float p; quantity := default 1 q |} in
  (OptionContract_init k o sd p q = Raise ValidationError
     ↔ (o = CALL ∨ o = PUT) ∧ PrimFloat.eqb (default 0%float p) 0%float = true)
  ∧ (OptionContract_init k o sd p q = Ok c
     ↔ ¬ ((o = CALL ∨ o = PUT) ∧ PrimFloat.eqb (default 0%float p) 0%float = true))
  ∧ (∀ k' sd' q', is_Ok (OptionContract_init k' o sd' p q')
                   = is_Ok (OptionContract_init k o sd p q)).
Proof.
  intros c.
  assert (Hkind : in_call_put o = true ↔ o = CALL ∨ o = PUT).
  { destruct o; simpl; split; try discriminate; auto; intros [? | ?]; discriminate. }
  assert (Hinit : ∀ k' sd' q', OptionContract_init k' o sd' p q' =
            if in_call_put o && PrimFloat.eqb (default 0%float p) 0%float
            then Raise ValidationError
            else Ok {| strike := validate_int_or_float k'; option_ := o; side := sd';
                       premium := default 0%float p; quantity := default 1 q' |}).
  { intros. unfold OptionContract_init. apply premium_check_cases. }
  split; [| split].
  - rewrite Hinit, <- Hkind.
    destruct (in_call_put o), (PrimFloat.eqb (default 0%float p) 0%float); simpl;
      split; try discriminate; auto; intros [? ?]; discriminate.
  - rewrite Hinit, <- Hkind. fold c.
    destruct (in_call_put o), (PrimFloat.eqb (default 0%float p) 0%float); simpl;
      (split; [intros Hr | intros Hn]); try discriminate; try reflexivity.
    + exfalso; apply Hn; auto.
    + intros [_ ?]; discriminate.
    + intros [? _]; discriminate.
    + intros [? _]; discriminate.
  - intros k' sd' q'. rewrite !Hinit.
    destruct (in_call_put o && PrimFloat.eqb (default 0%float p) 0%float); reflexivity.
Qed.

(** ** Adding contracts *)

(** C4: [add_contract] either builds the contract and appends exactly it
    at the end of the sequence, leaving [spot] and [lot_size] alone, or
    raises the ValidationError of the construction and leaves the whole
    book as it was. *)
Theorem add_contract_atomic (self : OptionPayoff) (k : pynum) (o : option Opt)
    (sd : option Side) (p : option float) (q : option Z) :
  let c := {| strike := validate_int_or_float k; option_ := default CALL o;
              side := default BUY sd;
              premium := default 0%float p; quantity := default 1 q |} in
  (premium_check c = Ok c
   ∧ add_contract k o sd p q self =
       (Ok tt, {| spot := spot self; lot_size := lot_size self;
                  _options := _options self ++ [c] |}))
  ∨ (premium_check c = Raise ValidationError
     ∧ add_contract k o sd p q self = (Raise ValidationError, self)).
Proof.
  intros c.
  assert (Hrun : add_contract k o sd p q self =
                 match premium_check c with
                 | Ok c' => options_append c' self
                 | Raise e => (Raise e, self)
                 end) by reflexivity.
  rewrite Hrun, premium_check_cases.
  destruct (in_call_put (option_ c) && PrimFloat.eqb (premium c) 0%float);
    [right | left]; split; reflexivity.
Qed.

(** ** Net positions *)

Lemma Counter_get_empty (K : Opt) : Counter_get ∅ K = 0.
Proof. unfold Counter_get. rewrite lookup_empty. reflexivity. Qed.

Lemma Counter_get_iadd (c : gmap Opt Z) (k K : Opt) (q : Z) :
  Counter_get (Counter_iadd c k q) K =
    if decide (k = K) then Counter_get c K + q else Counter_get c K.
Proof.
  unfold Counter_iadd, Counter_get at 1.
  destruct (decide (k = K)) as [-> | Hne].
  - rewrite lookup_insert_eq. reflexivity.
  - rewrite lookup_insert_ne by assumption. reflexivity.
Qed.

Lemma Zsum_Permutation (l1 l2 : list Z) : Permutation l1 l2 → Zsum l1 = Zsum l2.
Proof. induction 1; simpl; lia. Qed.

Lemma Zsum_map_mul_r {A} (f : A → Z) (m : Z) (l : list A) :
  Zsum (map (λ x, f x * m) l) = Zsum (map f l) * m.
Proof. induction l as [| x l IH]; simpl; [reflexivity |]. rewrite IH. lia. Qed.

(** The loop of [net_positions], from any counter. *)
Lemma net_positions_loop (lot : Z) (l : list OptionContract) (acc : gmap Opt Z) (K : Opt) :
  Counter_get
    (foldl (λ positions contract,
              let qty := quantity contract * Side_value (side contract) * lot in
              Counter_iadd positions (option_ contract) qty) acc l) K
  = Counter_get acc K + Zsum (map (exposure lot) (of_kind K l)).
Proof.
  revert acc. induction l as [| c l IH]; intros acc; simpl.
  - unfold of_kind; simpl. lia.
  - rewrite IH, Counter_get_iadd. unfold of_kind.
    rewrite filter_cons. destruct (decide (option_ c = K)); simpl.
    + unfold exposure at 2. lia.
    + reflexivity.
Qed.

Lemma net_positions_lookup (self : OptionPayoff) (K : Opt) :
  Counter_get (net_positions self) K
  = Zsum (map (exposure (lot_size self)) (of_kind K (options self))).
Proof.
  unfold net_positions. rewrite net_positions_loop, Counter_get_empty. lia.
Qed.

(** A kind is a key of the counter exactly when some contract has it. *)
Lemma net_positions_loop_key (lot : Z) (l : list OptionContract) (acc : gmap Opt Z) (K : Opt) :
  is_Some (foldl (λ positions contract,
              let qty := quantity contract * Side_value (side contract) * lot in
              Counter_iadd positions (option_ contract) qty) acc l !! K)
  ↔ is_Some (acc !! K) ∨ of_kind K l ≠ [].
Proof.
  revert acc. induction l as [| c l IH]; intros acc; simpl.
  - unfold of_kind; simpl. tauto.
  - rewrite IH. unfold of_kind, Counter_iadd. rewrite filter_cons.
    destruct (decide (option_ c = K)) as [-> | Hne].
    + rewrite lookup_insert_eq. split; [intros _ | intros _; left; eauto].
      right; discriminate.
    + rewrite lookup_insert_ne by assumption. reflexivity.
Qed.

(** C5: looked up at a kind [K], [net_positions] is the sum over the
    contracts of kind [K] of [quantity * side multiplier * lot_size]
    (equally, the sum of [quantity * side multiplier] times [lot_size]);
    a kind without contracts is no key of the counter and reads as zero. *)
Theorem net_positions_sum (self : OptionPayoff) (K : Opt) :
  Counter_get (net_positions self) K
    = Zsum (map (λ c, quantity c * Side_value (side c) * lot_size self)
                (filter (λ c, option_ c = K) (options self)))
  ∧ Counter_get (net_positions self) K
    = Zsum (map (λ c, quantity c * Side_value (side c))
                (filter (λ c, option_ c = K) (options self))) * lot_size self
  ∧ (filter (λ c, option_ c = K) (options self) = [] →
       net_positions self !! K = None ∧ Counter_get (net_positions self) K = 0).
Proof.
  pose proof (net_positions_lookup self K) as Hsum.
  unfold of_kind, exposure in Hsum.
  split; [exact Hsum | split].
  - rewrite Hsum. apply Zsum_map_mul_r.
  - intros Hnone. rewrite Hsum, Hnone. split; [| reflexivity].
    apply eq_None_not_Some. intros Hkey.
    apply net_positions_loop_key in Hkey as [Hkey | Hkey].
    + rewrite lookup_empty in Hkey. destruct Hkey; discriminate.
    + apply Hkey. exact Hnone.
Qed.

(** ** Naked positions *)

Lemma has_naked_positions_iff (self : OptionPayoff) :
  has_naked_positions self = true
  ↔ Counter_get (net_positions self) CALL < 0 ∨ Counter_get (net_positions self) PUT < 0.
Proof.
  unfold has_naked_positions.
  destruct (Z.ltb_spec (Counter_get (net_positions self) CALL) 0);
    destruct (Z.ltb_spec (Counter_get (net_positions self) PUT) 0);
    split; try reflexivity; try discriminate; intros; try lia; auto.
Qed.

Lemma of_kind_call_put (K : Opt) (l : list OptionContract) :
  in_call_put K = true →
  of_kind K (filter (λ c, in_call_put (option_ c) = true) l) = of_kind K l.
Proof.
  intros HK. unfold of_kind. rewrite list_filter_filter.
  apply list_filter_iff. intros c. split; [tauto |].
  intros ->. auto.
Qed.

(** C6: [has_naked_positions] holds exactly when the net CALL exposure or
    the net PUT exposure is negative; dropping every future and holding
    from the book does not change it; and a book of one long and one short
    call of the same quantity has net CALL exposure [0] and no naked
    position. *)
Theorem has_naked_positions_spec (self : OptionPayoff) :
  (has_naked_positions self = true
     ↔ Counter_get (net_positions self) CALL < 0
       ∨ Counter_get (net_positions self) PUT < 0)
  ∧ has_naked_positions
      (with_options self (filter (λ c, in_call_put (option_ c) = true) (options self)))
    = has_naked_positions self
  ∧ (∀ k1 k2 p1 p2 q,
       let book := with_options self
         [ {| strike := k1; option_ := CALL; side := BUY; premium := p1; quantity := q |};
           {| strike := k2; option_ := CALL; side := SELL; premium := p2; quantity := q |} ] in
       Counter_get (net_positions book) CALL = 0
       ∧ has_naked_positions book = false).
Proof.
  split; [apply has_naked_positions_iff | split].
  - unfold has_naked_positions.
    rewrite !net_positions_lookup. simpl.
    rewrite !of_kind_call_put by reflexivity. reflexivity.
  - intros k1 k2 p1 p2 q book.
    assert (Hcall : Counter_get (net_positions book) CALL = 0).
    { rewrite net_positions_lookup. unfold book, of_kind, exposure. cbn.
      rewrite !decide_True by reflexivity. simpl. lia. }
    assert (Hput : Counter_get (net_positions book) PUT = 0).
    { rewrite net_positions_lookup. reflexivity. }
    split; [exact Hcall |].
    unfold has_naked_positions. rewrite Hcall, Hput. reflexivity.
Qed.

(** ** List comprehensions in the exception monad *)

Section MapM.
Context {A B : Type} (f : A → result B).

Lemma mapM_cons (x : A) (l : list A) :
  mapM f (x :: l) = y ← f x; k ← mapM f l; Ok (y :: k).
Proof. reflexivity. Qed.

(** The comprehension returns [k] exactly when [k] holds, in order, the
    value of [f] at each item. *)
Lemma mapM_Ok (l : list A) (k : list B) :
  mapM f l = Ok k ↔ Forall2 (λ x y, f x = Ok y) l k.
Proof.
  revert k. induction l as [| x l IH]; intros k.
  - simpl. split.
    + intros [= <-]. constructor.
    + intros H. inversion H. reflexivity.
  - rewrite mapM_cons. split.
    + destruct (f x) as [y | e] eqn:Hx; simpl; [| discriminate].
      destruct (mapM f l) as [k' | e] eqn:Hl; simpl; [| discriminate].
      intros [= <-]. constructor; [exact Hx | apply IH; reflexivity].
    + intros H. inversion H as [| ? y ? k' Hx Hl]; subst.
      rewrite Hx; simpl. apply IH in Hl. rewrite Hl. reflexivity.
Qed.

(** It raises [e] exactly when [f] raises [e] at some item and returns
    at every item before it. *)
Lemma mapM_Raise (l : list A) (e : exn) :
  mapM f l = Raise e
  ↔ ∃ l1 x l2, l = l1 ++ x :: l2
               ∧ Forall (λ y, is_Ok (f y) = true) l1 ∧ f x = Raise e.
Proof.
  induction l as [| x l IH].
  - simpl. split; [discriminate |].
    intros (l1 & y & l2 & Hl & _). destruct l1; discriminate.
  - rewrite mapM_cons. split.
    + destruct (f x) as [y | e'] eqn:Hx; simpl.
      * destruct (mapM f l) as [k' | e'] eqn:Hl; simpl; [discriminate |].
        intros [= ->]. destruct IH as [IH _].
        destruct (IH eq_refl) as (l1 & z & l2 & -> & Hall & Hz).
        exists (x :: l1), z, l2. split; [reflexivity |].
        split; [| exact Hz]. constructor; [rewrite Hx; reflexivity | exact Hall].
      * intros [= ->]. exists [], x, l. repeat split; [constructor | exact Hx].
    + intros (l1 & z & l2 & Hl & Hall & Hz).
      destruct l1 as [| x' l1]; simpl in Hl; injection Hl as -> ->.
      * rewrite Hz. reflexivity.
      * inversion Hall as [| ? ? Hx Hall']; subst.
        destruct (f x') as [y | e']; [| discriminate]. simpl.
        destruct IH as [_ IH]. rewrite IH; [reflexivity |].
        exists l1, z, l2. auto.
Qed.

(** Reordering the items reorders the values. *)
Lemma mapM_Ok_Permutation (l l' : list A) (k : list B) :
  Permutation l l' → mapM f l = Ok k →
  ∃ k', mapM f l' = Ok k' ∧ Permutation k k'.
Proof.
  intros Hp. revert k.
  induction Hp as [| x l l' Hp IH | x y l | l l' l'' Hp1 IH1 Hp2 IH2]; intros k.
  - intros [= <-]. exists []. split; [reflexivity | constructor].
  - rewrite !mapM_cons.
    destruct (f x) as [v | e]; simpl; [| discriminate].
    destruct (mapM f l) as [k0 | e] eqn:Hl; simpl; [| discriminate].
    intros [= <-]. destruct (IH k0 eq_refl) as (k' & -> & Hk).
    exists (v :: k'). split; [reflexivity | constructor; exact Hk].
  - rewrite !mapM_cons.
    destruct (f y) as [v | e]; simpl; [| discriminate].
    destruct (f x) as [w | e]; simpl; [| discriminate].
    destruct (mapM f l) as [k0 | e]; simpl; [| discriminate].
    intros [= <-]. exists (w :: v :: k0). split; [reflexivity | constructor].
  - intros Hl. destruct (IH1 k Hl) as (k1 & Hl1 & Hk1).
    destruct (IH2 k1 Hl1) as (k2 & Hl2 & Hk2).
    exists k2. split; [exact Hl2 | etransitivity; eassumption].
Qed.
End MapM.

(** ** Payoff *)

Lemma payoff_unfold (self : OptionPayoff) (sp : option pynum) :
  payoff self sp = payoff_at self (settled_spot self sp).
Proof.
  unfold payoff, payoff_at, settled_spot.
  destruct sp as [s |]; simpl; [| reflexivity].
  destruct (py_bool s); reflexivity.
Qed.

Lemma payoff_truthy (self : OptionPayoff) (s : pynum) :
  py_bool s = true → payoff self (Some s) = payoff_at self s.
Proof. intros Hs. rewrite payoff_unfold. simpl. rewrite Hs. reflexivity. Qed.

Lemma payoff_no_argument (self : OptionPayoff) :
  payoff self None = payoff_at self (PFloat (spot self)).
Proof. apply payoff_unfold. Qed.

Lemma payoff_falsy (self : OptionPayoff) (s : pynum) :
  py_bool s = false → payoff self (Some s) = payoff self None.
Proof. intros Hs. rewrite !payoff_unfold. simpl. rewrite Hs. reflexivity. Qed.

Lemma payoff_at_nonempty (self : OptionPayoff) (s : pynum) :
  options self ≠ [] →
  payoff_at self s = (terms ← payoff_terms self s; py_sum terms).
Proof.
  intros Hne. unfold payoff_at.
  destruct (options self); [contradiction | reflexivity].
Qed.

(** C1: on the book [future_book], [payoff(0)] and [payoff(0.0)] return
    [50.0], the payoff at the book's spot [100.0], while the sum of
    [net_value(0) * lot_size] over the contracts is [-50]: a price of zero
    is taken for a missing argument. *)
Theorem payoff_zero_spot_evaluation :
  payoff future_book (Some (PInt 0)) = Ok (PFloat 50%float)
  ∧ (terms ← payoff_terms future_book (PInt 0); py_sum terms) = Ok (PInt (-50))
  ∧ payoff future_book (Some (PFloat 0%float)) = Ok (PFloat 50%float)
  ∧ (terms ← payoff_terms future_book (PFloat 0%float); py_sum terms)
      = Ok (PFloat (-50)%float).
Proof. repeat split; vm_compute; reflexivity. Qed.

(** C9: on a book without contracts [payoff] returns the float [0.0] for
    every argument, and after [clear()] on any book [payoff] returns
    [0.0], the book then holding no contract. *)
Theorem payoff_empty_and_clear :
  (∀ (sp : float) (lot : Z) (s : option pynum),
     payoff {| spot := sp; lot_size := lot; _options := [] |} s = Ok (PFloat 0%float))
  ∧ (∀ (self : OptionPayoff) (s : option pynum),
       (_ ← clear; query (λ book, payoff book s)) self
       = (Ok (PFloat 0%float),
          {| spot := spot self; lot_size := lot_size self; _options := [] |})).
Proof. split; intros; reflexivity. Qed.

(** C10: an argument that is zero (the int [0], the float [0.0], any
    falsy number) is treated as a missing one: [payoff(0)] and
    [payoff(0.0)] equal [payoff()], which is the payoff at the book's own
    spot; on [future_book], whose spot is [100.0], that differs from the
    payoff at price zero. *)
Theorem payoff_zero_is_no_argument :
  (∀ self : OptionPayoff,
     payoff self (Some (PInt 0)) = payoff self None
     ∧ payoff self (Some (PFloat 0%float)) = payoff self None
     ∧ (∀ s, py_bool s = false → payoff self (Some s) = payoff self None)
     ∧ payoff self None = payoff_at self (PFloat (spot self))
     ∧ payoff self (Some (PFloat 0%float)) = payoff_at self (PFloat (spot self)))
  ∧ payoff future_book (Some (PFloat 0%float)) ≠ payoff_at future_book (PFloat 0%float).
Proof.
  split.
  - intros self. split; [| split; [| split; [| split]]].
    + apply payoff_falsy. reflexivity.
    + apply payoff_falsy. reflexivity.
    + apply payoff_falsy.
    + apply payoff_no_argument.
    + rewrite payoff_falsy by reflexivity. apply payoff_no_argument.
  - vm_compute. discriminate.
Qed.

(** ** Simulation *)

(** C7: [simulate] returns the list [res] exactly when [res] holds, in the
    order of the prices, the value [payoff] returns at each price (so it
    has their length, and the empty list gives the empty list); it returns
    whenever [payoff] returns at every price, and it raises what the first
    raising [payoff] call raises.  Each element is [payoff] at that price
    on the same book. *)
Theorem simulate_elementwise (self : OptionPayoff) :
  simulate self [] = Ok []
  ∧ (∀ spots res,
       simulate self spots = Ok res
       ↔ Forall2 (λ s r, payoff self (Some s) = Ok r) spots res)
  ∧ (∀ spots res,
       simulate self spots = Ok res →
       length res = length spots
       ∧ ∀ i s, spots !! i = Some s →
                ∃ r, res !! i = Some r ∧ payoff self (Some s) = Ok r)
  ∧ (∀ spots,
       Forall (λ s, is_Ok (payoff self (Some s)) = true) spots →
       ∃ res, simulate self spots = Ok res)
  ∧ (∀ spots e,
       simulate self spots = Raise e
       ↔ ∃ l1 s l2, spots = l1 ++ s :: l2
                    ∧ Forall (λ s', is_Ok (payoff self (Some s')) = true) l1
                    ∧ payoff self (Some s) = Raise e).
Proof.
  split; [reflexivity |].
  split; [intros; apply mapM_Ok |].
  split; [| split].
  - intros spots res Hres. apply mapM_Ok in Hres. split.
    + symmetry. eapply Forall2_length. exact Hres.
    + intros i s Hs. eapply Forall2_lookup_l in Hres as (r & Hr & Hp); eauto.
  - intros spots Hall. destruct (simulate self spots) as [res | e] eqn:Hsim.
    + exists res. reflexivity.
    + apply mapM_Raise in Hsim as (l1 & s & l2 & -> & _ & Hs).
      apply Forall_app in Hall as [_ Hall].
      inversion Hall as [| ? ? Hok _]; subst.
      rewrite Hs in Hok. discriminate.
  - intros spots e. apply mapM_Raise.
Qed.

(** ** Order of the contracts *)

Lemma py_sum_from_ints (zs : list Z) (a : Z) :
  py_sum_from (PInt a) (map PInt zs) = Ok (PInt (a + Zsum zs)).
Proof.
  revert a. induction zs as [| z zs IH]; intros a; simpl.
  - f_equal. f_equal. lia.
  - rewrite IH. f_equal. f_equal. lia.
Qed.

Lemma py_sum_ints_Permutation (zs : list Z) (ts : list pynum) :
  Permutation (map PInt zs) ts → py_sum ts = py_sum (map PInt zs).
Proof.
  intros Hp. apply Permutation_sym, Permutation_map_inv in Hp as (zs' & -> & Hzs).
  unfold py_sum. rewrite !py_sum_from_ints. f_equal. f_equal. f_equal.
  symmetry. apply Zsum_Permutation. exact Hzs.
Qed.

Lemma payoff_terms_Permutation (self : OptionPayoff) (l' : list OptionContract)
    (s : pynum) (ts : list pynum) :
  Permutation (options self) l' → payoff_terms self s = Ok ts →
  ∃ ts', payoff_terms (with_options self l') s = Ok ts' ∧ Permutation ts ts'.
Proof. intros Hp Hts. eapply mapM_Ok_Permutation; eassumption. Qed.

Lemma payoff_at_ints_Permutation (self : OptionPayoff) (l' : list OptionContract)
    (s : pynum) (zs : list Z) :
  Permutation (options self) l' → payoff_terms self s = Ok (map PInt zs) →
  payoff_at (with_options self l') s = payoff_at self s.
Proof.
  intros Hp Hts.
  destruct (payoff_terms_Permutation self l' s _ Hp Hts) as (ts' & Hts' & Hperm).
  unfold payoff_at. change (options (with_options self l')) with l'.
  rewrite <- (Permutation_length Hp).
  destruct (length (options self) =? 0)%nat; [reflexivity |].
  rewrite Hts, Hts'. simpl. apply py_sum_ints_Permutation. exact Hperm.
Qed.

(** At an integer price such contracts give integer terms. *)
Lemma payoff_terms_int_futures (self : OptionPayoff) (z : Z) :
  Forall (λ c, int_future c = true) (options self) →
  payoff_terms self (PInt z)
  = Ok (map PInt (map (λ c, (z - int_strike c) * Side_value (side c)
                            * quantity c * lot_size self) (options self))).
Proof.
  intros Hall. apply mapM_Ok.
  induction Hall as [| c l Hc Hall IH]; simpl; constructor; [| exact IH].
  unfold int_future in Hc. apply andb_prop in Hc as [Hk Hs].
  unfold net_value, value, int_strike.
  destruct c as [k o sd p q]; simpl in *.
  destruct k as [k | f]; [| discriminate].
  destruct o; try discriminate; reflexivity.
Qed.

(** At that price the terms are [2**1023, 2**1023, -2**1023]: added in
    this order the first sum overflows to [inf] and stays there, added as
    long, short, long nothing overflows.  (The overflow is in the running
    total, so the two orders differ under a compensated float sum too.) *)
Lemma payoff_long_long_short :
  payoff long_long_short (Some huge_price) = Ok (PFloat infinity)
  ∧ payoff (with_options long_long_short [long_future; short_future; long_future])
           (Some huge_price) = Ok huge_price.
Proof. split; vm_compute; reflexivity. Qed.

(** C8, as stated, fails: the payoff of a book can change when its
    contracts are reordered. *)
Lemma payoff_depends_on_order :
  ¬ (∀ (self : OptionPayoff) (l' : list OptionContract) (s : option pynum) (K : Opt),
       Permutation (options self) l' →
       payoff (with_options self l') s = payoff self s
       ∧ Counter_get (net_positions (with_options self l')) K
         = Counter_get (net_positions self) K
       ∧ has_naked_positions (with_options self l') = has_naked_positions self).
Proof.
  intros Hclaim.
  destruct (Hclaim long_long_short [long_future; short_future; long_future]
              (Some huge_price) CALL) as [Hpay _].
  - apply perm_skip, perm_swap.
  - destruct payoff_long_long_short as [H1 H2].
    rewrite H1, H2 in Hpay. vm_compute in Hpay. discriminate.
Qed.

(** C8, amended: reordering the contracts changes neither [net_positions]
    at any kind nor [has_naked_positions]; for [payoff] it only reorders
    the terms [net_value(s) * lot_size] that are summed from left to
    right, so the payoff is unchanged whenever these terms are all ints,
    as they are for futures and holdings entered at integer prices and
    valued at a nonzero integer price. *)
Theorem order_of_contracts (self : OptionPayoff) (l' : list OptionContract) :
  Permutation (options self) l' →
  (∀ K, Counter_get (net_positions (with_options self l')) K
        = Counter_get (net_positions self) K)
  ∧ has_naked_positions (with_options self l') = has_naked_positions self
  ∧ (∀ s ts, payoff_terms self s = Ok ts →
             ∃ ts', payoff_terms (with_options self l') s = Ok ts'
                    ∧ Permutation ts ts')
  ∧ (∀ sp zs, payoff_terms self (settled_spot self sp) = Ok (map PInt zs) →
              payoff (with_options self l') sp = payoff self sp)
  ∧ (Forall (λ c, int_future c = true) (options self) →
     ∀ z, z ≠ 0 →
          payoff (with_options self l') (Some (PInt z)) = payoff self (Some (PInt z))).
Proof.
  intros Hp.
  assert (Hnet : ∀ K, Counter_get (net_positions (with_options self l')) K
                      = Counter_get (net_positions self) K).
  { intros K. rewrite !net_positions_lookup. simpl.
    apply Zsum_Permutation, Permutation_map. unfold of_kind.
    change (options (with_options self l')) with l'.
    rewrite Hp. reflexivity. }
  split; [exact Hnet |].
  split; [unfold has_naked_positions; rewrite !Hnet; reflexivity |].
  split; [intros s ts; apply payoff_terms_Permutation; exact Hp |].
  split.
  - intros sp zs Hts. rewrite !payoff_unfold.
    change (settled_spot (with_options self l') sp) with (settled_spot self sp).
    eapply payoff_at_ints_Permutation; eassumption.
  - intros Hall z Hz.
    assert (Hb : py_bool (PInt z) = true).
    { simpl. destruct (Z.eqb_spec z 0); [contradiction | reflexivity]. }
    rewrite !payoff_truthy by exact Hb.
    eapply payoff_at_ints_Permutation; [exact Hp |].
    apply payoff_terms_int_futures. exact Hall.
Qed.

(** A long future at 50 and a short one at 70, in either order. *)
Lemma order_of_contracts_witness :
  let long50 := {| strike := PInt 50; option_ := FUTURE; side := BUY;
                   premium := 0%float; quantity := 2 |} in
  let short70 := {| strike := PInt 70; option_ := FUTURE; side := SELL;
                    premium := 0%float; quantity := 1 |} in
  let book := {| spot := 60%float; lot_size := 25; _options := [long50; short70] |} in
  Permutation (options book) [short70; long50]
  ∧ payoff (with_options book [short70; long50]) (Some (PInt 65))
    = payoff book (Some (PInt 65)).
Proof.
  intros long50 short70 book.
  split; [apply perm_swap |].
  refine (proj2 (proj2 (proj2 (proj2
            (order_of_contracts book [short70; long50] (perm_swap _ _ _))))) _ 65 _).
  - repeat constructor.
  - lia.
Defined.

(** ** Exceptions of the valuation *)

Lemma int_to_float_raises (z : Z) (e : exn) :
  int_to_float z = Raise e → e = OverflowError.
Proof. unfold int_to_float. destruct (is_infinity _); congruence. Qed.

Lemma to_float_raises (a : pynum) (e : exn) :
  to_float a = Raise e → e = OverflowError.
Proof. destruct a; simpl; [apply int_to_float_raises | discriminate]. Qed.

Lemma py_arith_raises iop fop (a b : pynum) (e : exn) :
  py_arith iop fop a b = Raise e → e = OverflowError.
Proof.
  unfold py_arith.
  destruct a as [x | x], b as [y | y]; try discriminate; simpl;
    unfold mbind, result_bind.
  - destruct (int_to_float x) eqn:Hx; [discriminate |].
    intros [= <-]. eapply int_to_float_raises; eassumption.
  - destruct (int_to_float y) eqn:Hy; [discriminate |].
    intros [= <-]. eapply int_to_float_raises; eassumption.
Qed.

Lemma value_raises (c : OptionContract) (s : pynum) (e : exn) :
  value c s = Raise e → e = OverflowError.
Proof.
  unfold value, py_sub, mbind, result_bind.
  destruct (option_ c).
  - destruct (py_arith _ _ s (strike c)) eqn:H; [discriminate |].
    intros [= <-]. eapply py_arith_raises; eassumption.
  - destruct (py_arith _ _ (strike c) s) eqn:H; [discriminate |].
    intros [= <-]. eapply py_arith_raises; eassumption.
  - apply py_arith_raises.
  - apply py_arith_raises.
Qed.

(** Following a computation through its binds: either it raised what a
    step raised, or the step returned. *)
Ltac raise_step H :=
  match type of H with
  | match ?r with Ok _ => _ | Raise _ => _ end = Raise _ =>
      let Hr := fresh "Hr" in
      destruct r eqn:Hr;
      [| injection H as <-;
         first [ eapply py_arith_raises; eassumption
               | eapply value_raises; eassumption ] ]
  end.

Lemma net_value_raises (c : OptionContract) (s : pynum) (e : exn) :
  net_value c s = Raise e → e = OverflowError.
Proof.
  unfold net_value, py_sub, py_mul, mbind, result_bind. intros H.
  raise_step H.
  destruct (in_call_put (option_ c)).
  - do 2 raise_step H. eapply py_arith_raises; eassumption.
  - raise_step H. eapply py_arith_raises; eassumption.
Qed.

Lemma py_sum_from_raises (xs : list pynum) (acc : pynum) (e : exn) :
  py_sum_from acc xs = Raise e → e = OverflowError.
Proof.
  revert acc. induction xs as [| x xs IH]; intros acc; simpl; [discriminate |].
  unfold mbind, result_bind, py_add.
  destruct (py_arith _ _ acc x) eqn:H.
  - apply IH.
  - intros [= <-]. eapply py_arith_raises; eassumption.
Qed.

Lemma payoff_at_raises (self : OptionPayoff) (s : pynum) (e : exn) :
  payoff_at self s = Raise e → e = OverflowError.
Proof.
  unfold payoff_at. destruct (length (options self) =? 0)%nat; [discriminate |].
  unfold mbind at 1, result_bind.
  destruct (payoff_terms self s) as [ts | e'] eqn:Hts.
  - apply py_sum_from_raises.
  - intros [= <-]. apply mapM_Raise in Hts as (l1 & c & l2 & _ & _ & Hc).
    unfold mbind, result_bind, py_mul in Hc.
    destruct (net_value c s) eqn:Hv.
    + eapply py_arith_raises; eassumption.
    + injection Hc as <-. eapply net_value_raises; eassumption.
Qed.

(** X1: the valuation raises nothing but OverflowError: whatever
    [net_value], [payoff] or [simulate] raises is the failed conversion of
    an int to a float; a ValidationError comes from construction only. *)
Theorem valuation_raises_only_overflow :
  (∀ c s e, value c s = Raise e → e = OverflowError)
  ∧ (∀ c s e, net_value c s = Raise e → e = OverflowError)
  ∧ (∀ self sp e, payoff self sp = Raise e → e = OverflowError)
  ∧ (∀ self spots e, simulate self spots = Raise e → e = OverflowError).
Proof.
  split; [exact value_raises |].
  split; [exact net_value_raises |].
  assert (Hpay : ∀ self sp e, payoff self sp = Raise e → e = OverflowError).
  { intros self sp e. rewrite payoff_unfold. apply payoff_at_raises. }
  split; [exact Hpay |].
  intros self spots e Hsim.
  apply mapM_Raise in Hsim as (l1 & s & l2 & _ & _ & Hs).
  eapply Hpay; eassumption.
Qed.

(** ** Gross value *)

Lemma py_max0_not_negative (v : pynum) : py_zero_gt (py_max0 v) = false.
Proof. unfold py_max0. destruct (py_zero_gt v) eqn:Hv; [reflexivity | exact Hv]. Qed.

(** X2: the gross value of a call or a put is never below zero: what
    [value] returns does not compare less than [0] (it is the int [0] when
    the option is out of the money, and may be a NaN). *)
Theorem option_value_not_negative (c : OptionContract) (s v : pynum) :
  in_call_put (option_ c) = true → value c s = Ok v → py_zero_gt v = false.
Proof.
  unfold value, mbind, result_bind. intros Hkind.
  destruct (option_ c); try discriminate Hkind.
  - destruct (py_sub s (strike c)); [| discriminate].
    intros [= <-]. apply py_max0_not_negative.
  - destruct (py_sub (strike c) s); [| discriminate].
    intros [= <-]. apply py_max0_not_negative.
Qed.

Lemma option_value_not_negative_witness :
  let put := {| strike := PInt 100; option_ := PUT; side := SELL;
                premium := 4%float; quantity := 3 |} in
  value put (PFloat 120.5%float) = Ok (PInt 0) ∧ py_zero_gt (PInt 0) = false.
Proof.
  intros put. split; [vm_compute; reflexivity |].
  apply (option_value_not_negative put (PFloat 120.5%float) (PInt 0)).
  - reflexivity.
  - vm_compute. reflexivity.
Defined.

(** ** Ints and floats in the net value *)

Lemma int_to_float_0 : int_to_float 0 = Ok 0%float.
Proof. vm_compute. reflexivity. Qed.

Lemma int_to_float_Side_value (sd : Side) :
  int_to_float (Side_value sd) = Ok (if sd is BUY then 1%float else (- 1)%float).
Proof. destruct sd; vm_compute; reflexivity. Qed.

Lemma py_arith_float_l iop fop (f : float) (b : pynum) :
  py_arith iop fop (PFloat f) b = (y ← to_float b; Ok (PFloat (fop f y))).
Proof. destruct b; reflexivity. Qed.

Lemma py_arith_float_r iop fop (a : pynum) (f : float) :
  py_arith iop fop a (PFloat f) = (x ← to_float a; Ok (PFloat (fop x f))).
Proof. destruct a; reflexivity. Qed.

Lemma py_arith_float_l_result iop fop (f : float) (b v : pynum) :
  py_arith iop fop (PFloat f) b = Ok v → ∃ g, v = PFloat g.
Proof.
  rewrite py_arith_float_l. unfold mbind, result_bind.
  destruct (to_float b); [| discriminate]. intros [= <-]. eauto.
Qed.

(** X3: the net value of a call or a put, when it is returned, is a float,
    also for an integer strike and an integer price: the premium is a
    float. *)
Theorem option_net_value_is_float (c : OptionContract) (s v : pynum) :
  in_call_put (option_ c) = true → net_value c s = Ok v → ∃ f, v = PFloat f.
Proof.
  unfold net_value, py_sub, py_mul, mbind, result_bind. intros ->.
  destruct (value c s) as [val |]; [| discriminate].
  rewrite py_arith_float_r. unfold mbind, result_bind.
  destruct (to_float val) as [x |]; [| discriminate].
  rewrite py_arith_float_l. unfold mbind, result_bind.
  destruct (to_float (PInt (Side_value (side c)))) as [m |]; [| discriminate].
  apply py_arith_float_l_result.
Qed.

Lemma option_net_value_is_float_witness :
  let call := {| strike := PInt 100; option_ := CALL; side := BUY;
                 premium := 5%float; quantity := 2 |} in
  net_value call (PInt 130) = Ok (PFloat 50%float)
  ∧ ∃ f, PFloat 50%float = PFloat f.
Proof.
  intros call. split; [vm_compute; reflexivity |].
  apply (option_net_value_is_float call (PInt 130) (PFloat 50%float)).
  - reflexivity.
  - vm_compute. reflexivity.
Defined.

(** X4: with a float strike and a float price the only conversion that
    can fail is that of the quantity: [net_value] returns (a float)
    exactly when the quantity fits a float, and raises OverflowError
    otherwise, whatever the kind, side, premium and prices are. *)
Theorem net_value_of_floats (k : float) (o : Opt) (sd : Side) (p : float) (q : Z)
    (s : float) :
  let c := {| strike := PFloat k; option_ := o; side := sd;
              premium := p; quantity := q |} in
  (∀ fq, int_to_float q = Ok fq → ∃ f, net_value c (PFloat s) = Ok (PFloat f))
  ∧ (∀ e, int_to_float q = Raise e → net_value c (PFloat s) = Raise OverflowError).
Proof.
  intros c.
  assert (Hlast : ∀ e0 : float,
            py_mul (PFloat e0) (PInt q)
            = match int_to_float q with
              | Ok fq => Ok (PFloat (e0 * fq)%float)
              | Raise e => Raise e
              end) by reflexivity.
  assert (Hshape : ∃ e0 : float, net_value c (PFloat s) = py_mul (PFloat e0) (PInt q)).
  { unfold net_value, value, py_max0; simpl.
    destruct o; simpl; try destruct (PrimFloat.ltb _ _); simpl;
      rewrite int_to_float_Side_value; simpl; eauto. }
  destruct Hshape as (e0 & ->). rewrite Hlast.
  split.
  - intros fq ->. eauto.
  - intros e He. rewrite He. f_equal. eapply int_to_float_raises; eassumption.
Qed.

(** ** Long and short *)

Lemma binary_round_aux_negb (sx : bool) (m e : Z) (l : location) :
  binary_round_aux prec emax (negb sx) m e l
  = SFopp (binary_round_aux prec emax sx m e l).
Proof.
  unfold binary_round_aux.
  destruct (shr_fexp prec emax m e l) as [mrs' e'].
  destruct (shr_fexp prec emax _ e' loc_Exact) as [mrs'' e''].
  destruct (shr_m mrs''); simpl; try reflexivity.
  destruct (Z.leb e'' _); reflexivity.
Qed.

Lemma SFmul_opp_r (x y : spec_float) :
  SFmul prec emax x (SFopp y) = SFopp (SFmul prec emax x y).
Proof.
  destruct x as [sx | sx | | sx mx ex], y as [sy | sy | | sy my ey]; simpl;
    try reflexivity; try (destruct sx, sy; reflexivity).
  rewrite <- binary_round_aux_negb. f_equal. destruct sx, sy; reflexivity.
Qed.

Lemma SFmul_opp_l (x y : spec_float) :
  SFmul prec emax (SFopp x) y = SFopp (SFmul prec emax x y).
Proof.
  destruct x as [sx | sx | | sx mx ex], y as [sy | sy | | sy my ey]; simpl;
    try reflexivity; try (destruct sx, sy; reflexivity).
  rewrite <- binary_round_aux_negb. f_equal. destruct sx, sy; reflexivity.
Qed.

(** Rounding is symmetric: negating a factor negates the product. *)
Lemma float_mul_opp_r (x y : float) : (x * - y = - (x * y))%float.
Proof.
  apply Prim2SF_inj. rewrite opp_spec, !mul_spec, opp_spec. apply SFmul_opp_r.
Qed.

Lemma float_mul_opp_l (x y : float) : (- x * y = - (x * y))%float.
Proof.
  apply Prim2SF_inj. rewrite opp_spec, !mul_spec, opp_spec. apply SFmul_opp_l.
Qed.

(** [val * side.value * quantity] on the two sides. *)
Lemma scale_by_side_negates (val : pynum) (q : Z) :
  (e ← py_mul val (PInt (Side_value SELL)); py_mul e (PInt q))
  = (r ← (e ← py_mul val (PInt (Side_value BUY)); py_mul e (PInt q));
     Ok (py_neg r)).
Proof.
  destruct val as [z | f].
  - simpl. f_equal. f_equal. lia.
  - assert (Hsell : py_mul (PFloat f) (PInt (Side_value SELL))
                    = Ok (PFloat (f * PrimFloat.opp 1)%float)) by reflexivity.
    assert (Hbuy : py_mul (PFloat f) (PInt (Side_value BUY))
                   = Ok (PFloat (f * 1)%float)) by reflexivity.
    assert (Hq : ∀ e : float,
              py_mul (PFloat e) (PInt q)
              = match int_to_float q with
                | Ok fq => Ok (PFloat (e * fq)%float)
                | Raise x => Raise x
                end) by reflexivity.
    rewrite Hsell, Hbuy. cbn [mbind result_bind]. rewrite !Hq.
    destruct (int_to_float q) as [fq |]; cbn [mbind result_bind py_neg];
      [| reflexivity].
    rewrite float_mul_opp_r, float_mul_opp_l. reflexivity.
Qed.

(** X5: the net value of a contract sold is the negation of its net value
    bought, for every kind, price, premium and quantity, in integer and in
    floating-point arithmetic alike (and one raises exactly when the other
    does). *)
Theorem net_value_short_negates_long (c : OptionContract) (s : pynum) :
  net_value (on_side c SELL) s
  = (r ← net_value (on_side c BUY) s; Ok (py_neg r)).
Proof.
  unfold net_value, value, on_side; simpl.
  destruct (option_ c); simpl.
  - destruct (py_sub s (strike c)) as [v |]; simpl; [| reflexivity].
    destruct (py_sub (py_max0 v) (PFloat (premium c))) as [d |]; simpl; [| reflexivity].
    apply scale_by_side_negates.
  - destruct (py_sub (strike c) s) as [v |]; simpl; [| reflexivity].
    destruct (py_sub (py_max0 v) (PFloat (premium c))) as [d |]; simpl; [| reflexivity].
    apply scale_by_side_negates.
  - destruct (py_sub s (strike c)) as [v |]; simpl; [| reflexivity].
    apply scale_by_side_negates.
  - destruct (py_sub s (strike c)) as [v |]; simpl; [| reflexivity].
    apply scale_by_side_negates.
Qed.

(** ** Adding a contract *)

Lemma Zsum_app (l1 l2 : list Z) : Zsum (l1 ++ l2) = Zsum l1 + Zsum l2.
Proof. induction l1 as [| x l1 IH]; simpl; [reflexivity |]. rewrite IH. lia. Qed.

Lemma mapM_app {A B} (f : A → result B) (l1 l2 : list A) :
  mapM f (l1 ++ l2) = (k1 ← mapM f l1; k2 ← mapM f l2; Ok (k1 ++ k2)).
Proof.
  induction l1 as [| x l1 IH].
  - simpl. destruct (mapM f l2); reflexivity.
  - rewrite <- app_comm_cons, !mapM_cons, IH.
    destruct (f x); simpl; [| reflexivity].
    destruct (mapM f l1); simpl; [| reflexivity].
    destruct (mapM f l2); reflexivity.
Qed.

(** X6: [add] never raises and validates nothing; it appends the contract
    at the end and keeps [spot] and [lot_size]; in [net_positions] it
    moves the bucket of the contract's kind by
    [quantity * side.value * lot_size] and no other bucket. *)
Theorem add_updates_net_positions (self : OptionPayoff) (c : OptionContract) (K : Opt) :
  fst (add c self) = Ok tt
  ∧ options (book_after (add c) self) = options self ++ [c]
  ∧ spot (book_after (add c) self) = spot self
  ∧ lot_size (book_after (add c) self) = lot_size self
  ∧ Counter_get (net_positions (book_after (add c) self)) K
    = Counter_get (net_positions self) K
      + (if decide (option_ c = K)
         then quantity c * Side_value (side c) * lot_size self else 0).
Proof.
  repeat (split; [reflexivity |]).
  rewrite !net_positions_lookup.
  change (options (book_after (add c) self)) with (options self ++ [c]).
  change (lot_size (book_after (add c) self)) with (lot_size self).
  unfold of_kind. rewrite filter_app, map_app, Zsum_app. f_equal.
  rewrite filter_cons, filter_nil.
  destruct (decide (option_ c = K)); simpl; unfold exposure; lia.
Qed.

(** ** Keys of the counter *)

(** X8: a kind is a key of [net_positions] exactly when some contract of
    the book has that kind, also when the exposures of that kind cancel
    to zero. *)
Theorem net_positions_keys (self : OptionPayoff) (K : Opt) :
  is_Some (net_positions self !! K) ↔ ∃ c, c ∈ options self ∧ option_ c = K.
Proof.
  unfold net_positions. rewrite net_positions_loop_key, lookup_empty.
  unfold of_kind. split.
  - intros [[x Hx] | Hne]; [discriminate |].
    destruct (filter (λ c, option_ c = K) (options self)) as [| c l] eqn:Hf;
      [contradiction |].
    exists c.
    assert (Hc : c ∈ filter (λ c, option_ c = K) (options self))
      by (rewrite Hf; left).
    apply list_elem_of_filter in Hc as [Hkind Hin]. split; assumption.
  - intros (c & Hin & Hc). right. intros Hf.
    assert (Hc' : c ∈ filter (λ c, option_ c = K) (options self))
      by (apply list_elem_of_filter; split; [exact Hc | exact Hin]).
    rewrite Hf in Hc'. inversion Hc'.
Qed.

(** ** Books without short options *)

Lemma Zsum_nonneg (l : list Z) : Forall (λ z, 0 ≤ z) l → 0 ≤ Zsum l.
Proof. induction 1; simpl; lia. Qed.

(** X9: a book whose calls and puts are all bought, in quantities that
    are not negative, with a lot size that is not negative, has no naked
    position, whatever futures and holdings it holds. *)
Theorem long_options_are_not_naked (self : OptionPayoff) :
  0 ≤ lot_size self →
  Forall (λ c, in_call_put (option_ c) = true → side c = BUY ∧ 0 ≤ quantity c)
         (options self) →
  has_naked_positions self = false.
Proof.
  intros Hlot Hall.
  assert (Hk : ∀ K, in_call_put K = true → 0 ≤ Counter_get (net_positions self) K).
  { intros K HK. rewrite net_positions_lookup. apply Zsum_nonneg.
    apply Forall_map, Forall_forall. intros c Hc.
    apply list_elem_of_filter in Hc as [Hkind Hin].
    rewrite Forall_forall in Hall. specialize (Hall c Hin).
    rewrite Hkind in Hall. destruct (Hall HK) as [Hside Hq].
    unfold exposure. rewrite Hside. simpl. nia. }
  apply not_true_is_false. rewrite has_naked_positions_iff.
  pose proof (Hk CALL eq_refl). pose proof (Hk PUT eq_refl). lia.
Qed.

Lemma long_options_are_not_naked_witness :
  0 ≤ lot_size straddle
  ∧ Forall (λ c, in_call_put (option_ c) = true → side c = BUY ∧ 0 ≤ quantity c)
           (options straddle)
  ∧ has_naked_positions straddle = false.
Proof.
  assert (Hlot : 0 ≤ lot_size straddle) by (simpl; lia).
  assert (Hall : Forall (λ c, in_call_put (option_ c) = true
                              → side c = BUY ∧ 0 ≤ quantity c) (options straddle)).
  { repeat constructor; simpl; lia. }
  split; [exact Hlot | split; [exact Hall |]].
  exact (long_options_are_not_naked straddle Hlot Hall).
Defined.

(** ** Simulation on chunks and on the empty book *)

(** X10: on a book without contracts [simulate] returns [0.0] for every
    price of the list and never raises; so it does after [clear()] on any
    book. *)
Theorem simulate_empty_book (spots : list pynum) :
  (∀ (sp : float) (lot : Z),
     simulate {| spot := sp; lot_size := lot; _options := [] |} spots
     = Ok (replicate (length spots) (PFloat 0%float)))
  ∧ (∀ self : OptionPayoff,
       fst ((_ ← clear; query (λ book, simulate book spots)) self)
       = Ok (replicate (length spots) (PFloat 0%float))).
Proof.
  assert (Hempty : ∀ (sp : float) (lot : Z),
            simulate {| spot := sp; lot_size := lot; _options := [] |} spots
            = Ok (replicate (length spots) (PFloat 0%float))).
  { intros sp lot. unfold simulate.
    induction spots as [| s spots IH]; [reflexivity |].
    rewrite mapM_cons, IH. reflexivity. }
  split; [exact Hempty |].
  intros self. apply (Hempty (spot self) (lot_size self)).
Qed.

(** X11: a sweep can be cut in two: [simulate] on [l1 + l2] returns the
    results on [l1] followed by the results on [l2], and raises what the
    first raising part raises. *)
Theorem simulate_app (self : OptionPayoff) (l1 l2 : list pynum) :
  simulate self (l1 ++ l2)
  = (r1 ← simulate self l1; r2 ← simulate self l2; Ok (r1 ++ r2)).
Proof. apply mapM_app. Qed.

(** ** Contracts built by [add_contract] *)

Lemma add_contract_run (self : OptionPayoff) (k : pynum) (o : option Opt)
    (sd : option Side) (p : option float) (q : option Z) :
  add_contract k o sd p q self
  = match premium_check {| strike := validate_int_or_float k;
                           option_ := default CALL o;
                           side := default BUY sd;
                           premium := default 0%float p;
                           quantity := default 1 q |} with
    | Ok c => options_append c self
    | Raise e => (Raise e, self)
    end.
Proof. reflexivity. Qed.

Lemma premium_check_has_premium (c c' : OptionContract) :
  premium_check c = Ok c' → c' = c ∧ has_premium c = true.
Proof.
  rewrite premium_check_cases. unfold has_premium.
  destruct (in_call_put (option_ c)), (PrimFloat.eqb (premium c) 0%float);
    simpl; try discriminate; intros [= <-]; auto.
Qed.

(** X12: [add_contract] keeps the book free of options without premium:
    if every contract of the book has its premium (calls and puts a
    premium other than [0.0]), so has every contract after the call,
    whether it appended or raised. *)
Theorem add_contract_keeps_premiums (self : OptionPayoff) (k : pynum)
    (o : option Opt) (sd : option Side) (p : option float) (q : option Z) :
  Forall (λ c, has_premium c = true) (options self) →
  Forall (λ c, has_premium c = true)
         (options (book_after (add_contract k o sd p q) self)).
Proof.
  intros Hall. unfold book_after. rewrite add_contract_run.
  destruct (premium_check _) as [c |] eqn:Hc; simpl; [| exact Hall].
  apply premium_check_has_premium in Hc as [-> Hc].
  apply Forall_app. split; [exact Hall |]. constructor; [exact Hc | constructor].
Qed.

Lemma add_contract_keeps_premiums_witness :
  Forall (λ c, has_premium c = true) (options straddle)
  ∧ Forall (λ c, has_premium c = true)
           (options (book_after
              (add_contract (PInt 90) (Some PUT) (Some SELL) (Some 2.5%float) None)
              straddle)).
Proof.
  assert (Hall : Forall (λ c, has_premium c = true) (options straddle))
    by (repeat constructor).
  split; [exact Hall |].
  exact (add_contract_keeps_premiums straddle (PInt 90) (Some PUT) (Some SELL)
           (Some 2.5%float) None Hall).
Defined.

(** X13: called without a premium, [add_contract] raises ValidationError
    and leaves the book as it was when the kind is CALL or PUT, the
    default kind included (so [add_contract(strike)] alone always raises);
    for a future or a holding it appends the contract with premium
    [0.0] (and the strike as the field validation stores it). *)
Theorem add_contract_without_premium (self : OptionPayoff) (k : pynum)
    (o : option Opt) (sd : option Side) (q : option Z) :
  add_contract k o sd None q self
  = if in_call_put (default CALL o)
    then (Raise ValidationError, self)
    else (Ok tt,
          {| spot := spot self; lot_size := lot_size self;
             _options := _options self
               ++ [ {| strike := validate_int_or_float k;
                       option_ := default CALL o;
                       side := default BUY sd; premium := 0%float;
                       quantity := default 1 q |} ] |}).
Proof.
  rewrite add_contract_run, premium_check_cases. simpl.
  destruct (in_call_put (default CALL o)); reflexivity.
Qed.

(** ** Books of futures at integer prices *)

(** X14: on a book of futures and holdings entered at integer prices,
    the payoff at a nonzero integer price [z] is computed in integers
    only: it is the int [sum((z - strike) * side.value * quantity *
    lot_size)], without rounding and without exception. *)
Theorem int_futures_payoff (self : OptionPayoff) (z : Z) :
  z ≠ 0 → options self ≠ [] →
  Forall (λ c, int_future c = true) (options self) →
  payoff self (Some (PInt z))
  = Ok (PInt (Zsum (map (λ c, (z - int_strike c) * Side_value (side c)
                              * quantity c * lot_size self) (options self)))).
Proof.
  intros Hz Hne Hall.
  rewrite payoff_truthy
    by (simpl; destruct (Z.eqb_spec z 0); [contradiction | reflexivity]).
  rewrite (payoff_at_nonempty self (PInt z) Hne).
  rewrite (payoff_terms_int_futures self z Hall). simpl.
  unfold py_sum. rewrite py_sum_from_ints. reflexivity.
Qed.

Lemma int_futures_payoff_witness :
  let long50 := {| strike := PInt 50; option_ := FUTURE; side := BUY;
                   premium := 0%float; quantity := 2 |} in
  let short70 := {| strike := PInt 70; option_ := HOLDING; side := SELL;
                    premium := 0%float; quantity := 1 |} in
  let book := {| spot := 60%float; lot_size := 25; _options := [long50; short70] |} in
  payoff book (Some (PInt 65)) = Ok (PInt 875).
Proof.
  intros long50 short70 book.
  refine (eq_trans (int_futures_payoff book 65 _ _ _) _).
  - lia.
  - discriminate.
  - repeat constructor.
  - reflexivity.
Defined.

(** ** Exposure and prices *)

(** X15: [net_positions] and [has_naked_positions] do not look at prices:
    two books with the same lot size whose contracts agree, one by one,
    on kind, side and quantity have the same counter and the same naked
    flag, whatever their strikes, premiums and spots are. *)
Theorem net_positions_ignore_prices (sp1 sp2 : float) (lot : Z)
    (l1 l2 : list OptionContract) :
  Forall2 same_position l1 l2 →
  net_positions {| spot := sp1; lot_size := lot; _options := l1 |}
  = net_positions {| spot := sp2; lot_size := lot; _options := l2 |}
  ∧ has_naked_positions {| spot := sp1; lot_size := lot; _options := l1 |}
    = has_naked_positions {| spot := sp2; lot_size := lot; _options := l2 |}.
Proof.
  intros Hsame.
  assert (Hnet : net_positions {| spot := sp1; lot_size := lot; _options := l1 |}
                 = net_positions {| spot := sp2; lot_size := lot; _options := l2 |}).
  { unfold net_positions, options; simpl. generalize (∅ : gmap Opt Z).
    induction Hsame as [| c1 c2 l1 l2 (Hk & Hs & Hq) _ IH]; intros acc;
      [reflexivity |].
    simpl. rewrite Hk, Hs, Hq. apply IH. }
  split; [exact Hnet |].
  unfold has_naked_positions. rewrite Hnet. reflexivity.
Qed.

Lemma net_positions_ignore_prices_witness :
  let sold_call k p := {| strike := k; option_ := CALL; side := SELL;
                          premium := p; quantity := 2 |} in
  Forall2 same_position [sold_call (PInt 110) 3%float] [sold_call (PFloat 95.5%float) 7%float]
  ∧ net_positions {| spot := 0%float; lot_size := 50;
                     _options := [sold_call (PInt 110) 3%float] |}
    = net_positions {| spot := 100%float; lot_size := 50;
                       _options := [sold_call (PFloat 95.5%float) 7%float] |}.
Proof.
  intros sold_call.
  assert (Hsame : Forall2 same_position [sold_call (PInt 110) 3%float]
                    [sold_call (PFloat 95.5%float) 7%float])
    by (repeat constructor).
  split; [exact Hsame |].
  exact (proj1 (net_positions_ignore_prices 0%float 100%float 50 _ _ Hsame)).
Defined.
